(** * TradeMachine: a shallow embedding of [app.py]

    The Streamlit script merges a performance table with an injury
    table, scores players by a week-weighted blend of two columns,
    ranks the whole table and evaluates the fairness of a trade.

    Modelling choices, used throughout:
    - Python numbers are exact rationals ([Q]); the binary rounding of
      floating point is not represented.  The IEEE "not a number" value
      that pandas uses for a missing cell is the separate cell [NaN].
    - A pandas [DataFrame] is an ordered list of column labels and a
      list of rows; a row carries its index label and a finite map from
      column label to cell.
    - An uncaught Python exception is a value of [result]; calls to the
      Streamlit page ([st.markdown], [st.error], ...) are recorded, in
      order, in a log of [st_event]s.
    - The clock ([datetime.now()]) is an explicit argument: the number
      of whole days elapsed since the base date. *)

From Stdlib Require Import QArith Qminmax Qround Lqa.
From stdpp Require Import gmap strings list fin_maps pretty sorting.

Local Open Scope Q_scope.

(** ** Exceptions *)

Inductive exn :=
| KeyError (label : string)
| IndexError
| TypeError.

Inductive result (A : Type) :=
| Ok (a : A)
| Raise (e : exn).
Arguments Ok {A} a.
Arguments Raise {A} e.

#[global] Instance result_ret : MRet result := @Ok.
#[global] Instance result_bind : MBind result := λ A B f m,
  match m with
  | Ok a => f a
  | Raise e => Raise e
  end.

(** ** Cells, rows and frames *)

Inductive cell :=
| Num (q : Q)
| Str (s : string)
| NaN.

Record DataFrame := {
  columns : list string;
  index_name : option string;
  rows : list (Z * gmap string cell)
}.

(** [pd.DataFrame()] *)
Definition empty_frame : DataFrame :=
  {| columns := []; index_name := None; rows := [] |}.

(** [row[label]] on the Series of one row *)
Definition series_get (row : gmap string cell) (label : string) : result cell :=
  match row !! label with
  | Some c => Ok c
  | None => Raise (KeyError label)
  end.

(** [data[label] == s], the boolean mask of a string comparison *)
Definition cell_is_str (s : string) (c : cell) : bool :=
  match c with
  | Str s' => bool_decide (s' = s)
  | _ => false
  end.

Definition column_eq_str (data : DataFrame) (label s : string) : result (list bool) :=
  if bool_decide (label ∈ columns data)
  then Ok ((λ r, cell_is_str s (default NaN (r.2 !! label))) <$> rows data)
  else Raise (KeyError label).

(** [data[mask]] *)
Fixpoint boolean_index {A} (l : list A) (mask : list bool) : list A :=
  match l, mask with
  | x :: l', b :: mask' => if b then x :: boolean_index l' mask' else boolean_index l' mask'
  | _, _ => []
  end.

(** [.iloc[0]] *)
Definition iloc0 {A} (l : list A) : result A :=
  match l with
  | x :: _ => Ok x
  | [] => Raise IndexError
  end.

(** [data[data['Player_Name'] == player_name].iloc[0]] *)
Definition select_player (data : DataFrame) (player_name : string)
  : result (gmap string cell) :=
  mask ← column_eq_str data "Player_Name" player_name;
  r ← iloc0 (boolean_index (rows data) mask);
  Ok r.2.

(** ** Week clock *)

(** [delta_days] is [(datetime.now() - datetime(2024, 10, 21)).days]. *)
Definition calculate_week (delta_days : Z) : Z :=
  Z.max 0 (delta_days / 7 + 1).

(** ** Single-player score *)

(** [max(2, x)] for a cell read from the table.  Python's [max] keeps
    its first argument unless a later one compares greater; every
    comparison with NaN is false; comparing a string with an integer
    raises. *)
Definition max2 (c : cell) : result Q :=
  match c with
  | Num q => Ok (Qmax 2 q)
  | NaN => Ok 2
  | Str _ => Raise TypeError
  end.

Definition calculate_score (player_name : string) (week : Z) (data : DataFrame)
  : result Q :=
  player_data ← select_player data player_name;
  regular ← series_get player_data "Regular" ≫= max2;
  projection ← series_get player_data "Projection" ≫= max2;
  let score := ((inject_Z (20 - week) * projection) / 20)
               + ((inject_Z week * regular) / 20) in
  let score := Qmax 2 score in
  Ok score.

(** ** The Streamlit page *)

Inductive detail :=
| PlayerDetail (player : string) (regular projection score : Q)
| EmptySlot.

Inductive team := Team1 | Team2.

Inductive markdown :=
| CurrentWeek (week : Z)
| EmptySlotsInfo (t : team) (empty_slots : nat)
| TeamTotalScore (t : team) (total : Q)
| TeamDetail (d : detail)
| TradeRatio (trade_ratio : Q)
| TradeApproved
| TradeNotApproved.

Inductive message :=
| FailedToReadData (e : exn)
| BothTeamsNeedAPlayer
| SelectedForBothTeams (duplicate_players : gset string)
| SelectPlayersForBothTeams.

Inductive st_event :=
| st_markdown (m : markdown)
| st_warning (w : message)
| st_error (w : message)
| st_dataframe (df : DataFrame)
| st_download_button (df : DataFrame).

(** A run of page code: what it wrote to the page, and how it ended. *)
Record ui (A : Type) := Ui {
  page : list st_event;
  outcome : result A
}.
Arguments Ui {A} page outcome.
Arguments page {A} u.
Arguments outcome {A} u.

#[global] Instance ui_ret : MRet ui := λ A a, Ui [] (Ok a).
#[global] Instance ui_bind : MBind ui := λ A B f m,
  match outcome m with
  | Ok a => Ui (page m ++ page (f a)) (outcome (f a))
  | Raise e => Ui (page m) (Raise e)
  end.

Definition emit (ev : st_event) : ui () := Ui [ev] (Ok ()).
Definition lift {A} (r : result A) : ui A := Ui [] r.

(** ** Trade evaluation *)

(** The body shared by the two [for player in teamN_players] loops:
    the scores and the formatted details, in selection order. *)
Fixpoint evaluate_team (week : Z) (data : DataFrame) (players : list string)
  : result (list Q * list detail) :=
  match players with
  | [] => Ok ([], [])
  | player :: players' =>
      score ← calculate_score player week data;
      player_data ← select_player data player;
      regular ← series_get player_data "Regular" ≫= max2;
      projection ← series_get player_data "Projection" ≫= max2;
      '(scores, details) ← evaluate_team week data players';
      Ok (score :: scores, PlayerDetail player regular projection score :: details)
  end.

(** [sum(scores)] *)
Definition sum (scores : list Q) : Q := foldl Qplus 0 scores.

(** The local variables of [evaluate_trade] when it returns. *)
Record trade_locals := TradeLocals {
  final_team1_scores : list Q;
  final_team1_total : Q;
  final_team2_scores : list Q;
  final_team2_total : Q
}.

Inductive trade_outcome :=
| TradeInvalid (l : trade_locals)
| TradeEvaluated (l : trade_locals) (trade_ratio : Q) (approved : bool).

Definition evaluate_trade (delta_days : Z) (data : DataFrame)
    (team1_players team2_players : list string) : ui trade_outcome :=
  let week := calculate_week delta_days in
  emit (st_markdown (CurrentWeek week));;
  '(team1_scores, team1_details) ← lift (evaluate_team week data team1_players);
  let team1_total := sum team1_scores in
  '(team2_scores, team2_details) ← lift (evaluate_team week data team2_players);
  let team2_total := sum team2_scores in
  '(l, team1_details, team2_details) ←
    (if bool_decide (length team1_players < length team2_players)%nat then
       let empty_slots := (length team2_players - length team1_players)%nat in
       emit (st_markdown (EmptySlotsInfo Team1 empty_slots));;
       mret (TradeLocals (team1_scores ++ replicate empty_slots 2.00)
                         (team1_total + 2.00 * inject_Z (Z.of_nat empty_slots))
                         team2_scores team2_total,
             team1_details ++ replicate empty_slots EmptySlot,
             team2_details)
     else if bool_decide (length team2_players < length team1_players)%nat then
       let empty_slots := (length team1_players - length team2_players)%nat in
       emit (st_markdown (EmptySlotsInfo Team2 empty_slots));;
       mret (TradeLocals team1_scores team1_total
                         (team2_scores ++ replicate empty_slots 2.00)
                         (team2_total + 2.00 * inject_Z (Z.of_nat empty_slots)),
             team1_details,
             team2_details ++ replicate empty_slots EmptySlot)
     else
       mret (TradeLocals team1_scores team1_total team2_scores team2_total,
             team1_details, team2_details));
  emit (st_markdown (TeamTotalScore Team1 (final_team1_total l)));;
  Ui (st_markdown ∘ TeamDetail <$> team1_details) (Ok ());;
  emit (st_markdown (TeamTotalScore Team2 (final_team2_total l)));;
  Ui (st_markdown ∘ TeamDetail <$> team2_details) (Ok ());;
  if Qeq_bool (final_team1_total l) 0 || Qeq_bool (final_team2_total l) 0 then
    emit (st_warning BothTeamsNeedAPlayer);;
    mret (TradeInvalid l)
  else
    let trade_ratio := Qmin (final_team1_total l / final_team2_total l)
                            (final_team2_total l / final_team1_total l) in
    emit (st_markdown (TradeRatio trade_ratio));;
    if Qle_bool 0.80 trade_ratio then
      emit (st_markdown TradeApproved);;
      mret (TradeEvaluated l trade_ratio true)
    else
      emit (st_markdown TradeNotApproved);;
      mret (TradeEvaluated l trade_ratio false).

(** The [if submitted:] block of [main]. *)
Definition main_on_submit (delta_days : Z) (data : DataFrame)
    (team1_selected team2_selected : list string) : ui (option trade_outcome) :=
  let duplicate_players : gset string :=
    list_to_set team1_selected ∩ list_to_set team2_selected in
  if bool_decide (duplicate_players ≠ ∅) then
    emit (st_error (SelectedForBothTeams duplicate_players));;
    mret None
  else if bool_decide (team1_selected = []) && bool_decide (team2_selected = []) then
    emit (st_warning SelectPlayersForBothTeams);;
    mret None
  else
    r ← evaluate_trade delta_days data team1_selected team2_selected;
    mret (Some r).

(** ** Name normalisation *)

(** A Python [str] is a sequence of Unicode code points. *)
Definition codepoint : Set := N.

(** [str.isspace], which is also the class [\s] of a [str] pattern. *)
Definition isspace (c : codepoint) : bool :=
  ((9 <=? c) && (c <=? 13) || (28 <=? c) && (c <=? 32)
   || (c =? 133) || (c =? 160) || (c =? 5760)
   || (8192 <=? c) && (c <=? 8202)
   || (c =? 8232) || (c =? 8233) || (c =? 8239) || (c =? 8287) || (c =? 12288))%N.

(** the class [a-z] *)
Definition is_a_z (c : codepoint) : bool := ((97 <=? c) && (c <=? 122))%N.

Definition space : codepoint := 32%N.

(** [re.sub(r'[^a-z\s]', '', name)] *)
Definition sub_not_a_z_space (name : list codepoint) : list codepoint :=
  List.filter (λ c, is_a_z c || isspace c) name.

(** [re.sub(r'\s+', ' ', name)], scanning left to right; [in_run] tells
    that the previous code point belonged to the run being replaced. *)
Fixpoint sub_space_runs (in_run : bool) (name : list codepoint) : list codepoint :=
  match name with
  | [] => []
  | c :: name' =>
      if isspace c
      then (if in_run then sub_space_runs true name'
            else space :: sub_space_runs true name')
      else c :: sub_space_runs false name'
  end.

Fixpoint lstrip (name : list codepoint) : list codepoint :=
  match name with
  | [] => []
  | c :: name' => if isspace c then lstrip name' else name
  end.

Definition strip (name : list codepoint) : list codepoint :=
  reverse (lstrip (reverse (lstrip name))).

Section NameNormalizer.

(** [str.lower] and [unicodedata.normalize('NFKD', _)] come from the
    Python runtime's Unicode tables. *)
Variable lower : list codepoint → list codepoint.
Variable NFKD : list codepoint → list codepoint.

Definition normalize_player_name (player_name : list codepoint) : list codepoint :=
  let name := lower player_name in
  let name := NFKD name in
  let name := sub_not_a_z_space name in
  let name := strip (sub_space_runs false name) in
  name.

End NameNormalizer.

(** ** The pandas operations of [read_data] *)

Definition cell_eqb (a b : cell) : bool :=
  match a, b with
  | Num p, Num q => Qeq_bool p q
  | Str s, Str t => bool_decide (s = t)
  | NaN, NaN => true
  | _, _ => false
  end.

(** A label carried by both frames gets the side's suffix. *)
Definition suffixed (suffix : string) (other : list string) (c : string) : string :=
  if bool_decide (c ∈ other) then c +:+ suffix else c.

(** [pd.merge(left, right, left_on=.., right_on=.., how='left')]: every
    left row, in order, once per right row with an equal key, or once
    with missing right cells when there is none.  When the two key
    labels coincide the key appears once in the output. *)
Definition merge_left (left right : DataFrame) (left_on right_on : string)
  : result DataFrame :=
  if negb (bool_decide (right_on ∈ columns right)) then Raise (KeyError right_on)
  else if negb (bool_decide (left_on ∈ columns left)) then Raise (KeyError left_on)
  else
    let right_columns :=
      if bool_decide (left_on = right_on)
      then filter (λ c, c ≠ right_on) (columns right)
      else columns right in
    let llabel := suffixed "_x" right_columns in
    let rlabel := suffixed "_y" (columns left) in
    let lpart (lrow : gmap string cell) :=
      (λ c, (llabel c, default NaN (lrow !! c))) <$> columns left in
    let rpart (rrow : gmap string cell) :=
      (λ c, (rlabel c, default NaN (rrow !! c))) <$> right_columns in
    let key_of label (row : gmap string cell) := default NaN (row !! label) in
    let joined : list (list (string * cell)) :=
      lrow ← (snd <$> rows left);
      match List.filter (λ rrow, cell_eqb (key_of left_on lrow) (key_of right_on rrow))
                        (snd <$> rows right) with
      | [] => [lpart lrow ++ rpart ∅]
      | matching => (λ rrow, lpart lrow ++ rpart rrow) <$> matching
      end in
    Ok {| columns := (llabel <$> columns left) ++ (rlabel <$> right_columns);
          index_name := None;
          rows := imap (λ i kvs, (Z.of_nat i, list_to_map kvs)) joined |}.

(** [data[label] = data[label].fillna(value)] *)
Definition fillna (data : DataFrame) (label : string) (value : cell) : result DataFrame :=
  if bool_decide (label ∈ columns data) then
    Ok {| columns := columns data;
          index_name := index_name data;
          rows := (λ r, (r.1, <[label := match default NaN (r.2 !! label) with
                                          | NaN => value
                                          | c => c
                                          end]> r.2)) <$> rows data |}
  else Raise (KeyError label).

(** [data.drop(columns=[label], inplace=True)] *)
Definition drop_column (data : DataFrame) (label : string) : DataFrame :=
  {| columns := filter (λ c, c ≠ label) (columns data);
     index_name := index_name data;
     rows := (λ r, (r.1, delete label r.2)) <$> rows data |}.

(** [scores_file] and [injury_file] are what [pd.read_excel] yields for
    the two paths. *)
Definition read_data (scores_file injury_file : result DataFrame) : ui DataFrame :=
  let try : result DataFrame :=
    df_scores ← scores_file;
    df_injuries ← injury_file;
    merged_df ← (if bool_decide ("Player_Name" ∈ columns df_scores)
                 then merge_left df_scores df_injuries "Player_Name" "Player"
                 else merge_left df_scores df_injuries "Player" "Player");
    merged_df ← fillna merged_df "Injury" (Str "Healthy");
    merged_df ← fillna merged_df "Status" (Str "Active");
    let merged_df := if bool_decide ("Player" ∈ columns merged_df)
                     then drop_column merged_df "Player"
                     else merged_df in
    Ok merged_df in
  match try with
  | Ok merged_df => mret merged_df
  | Raise e => emit (st_error (FailedToReadData e));; mret empty_frame
  end.

(** ** Ranking *)

(** [DataFrame.sort_values(by=.., ascending=False)] is called without a
    [kind], so pandas sorts with its default [kind='quicksort'], which
    its documentation lists among the algorithms that are not stable.
    What the call guarantees is a rearrangement of the rows in
    descending order of the key; how rows with equal keys are arranged
    is left to the sorting routine.  The routine is therefore an
    interface with that guarantee. *)
Class DescendingSort := {
  sort_desc : ∀ A : Type, (A → Q) → list A → list A;
  sort_desc_perm : ∀ A (key : A → Q) l, sort_desc A key l ≡ₚ l;
  sort_desc_sorted : ∀ A (key : A → Q) l,
    StronglySorted (λ x y, key y <= key x) (sort_desc A key l)
}.
Arguments sort_desc {_ A} key l.

(** Round half to even, as [numpy.rint] does. *)
Definition rint (q : Q) : Z :=
  let f := Qfloor q in
  match Qcompare (q - inject_Z f) (1 # 2) with
  | Lt => f
  | Gt => (f + 1)%Z
  | Eq => if Z.even f then f else (f + 1)%Z
  end.

(** [Series.round(2)] *)
Definition round2 (c : cell) : cell :=
  match c with
  | Num q => Num (rint (q * 100) # 100)
  | c => c
  end.

(** The format [f"{x:.2f}"]. *)
Definition two_digits (n : Z) : string :=
  if (n <? 10)%Z then "0" +:+ pretty n else pretty n.

Definition format_2f (x : cell) : string :=
  match x with
  | Num q =>
      let z := rint (q * 100) in
      (if (z <? 0)%Z then "-" else "")
      +:+ pretty (Z.abs z / 100)%Z +:+ "." +:+ two_digits (Z.abs z mod 100)%Z
  | _ => "nan"
  end.

(** One operand [(w * row[label]) / 20] of the ranking lambda: a missing
    cell makes it NaN, a string cannot be divided. *)
Definition weighted (w : Z) (row : gmap string cell) (label : string)
  : result (option Q) :=
  c ← series_get row label;
  match c with
  | Num q => Ok (Some ((inject_Z w * q) / 20))
  | NaN => Ok None
  | Str _ => Raise TypeError
  end.

(** [lambda row: (((20 - week) * row['Projection']) / 20) + ((week * row['Regular']) / 20)] *)
Definition total_score (week : Z) (row : gmap string cell) : result cell :=
  a ← weighted (20 - week) row "Projection";
  b ← weighted week row "Regular";
  match a, b with
  | Some a, Some b => Ok (Num (a + b))
  | _, _ => Ok NaN
  end.

(** [data[label] = values] *)
Definition assign (data : DataFrame) (label : string) (values : list cell) : DataFrame :=
  {| columns := if bool_decide (label ∈ columns data) then columns data
                else columns data ++ [label];
     index_name := index_name data;
     rows := zip_with (λ r v, (r.1, <[label := v]> r.2)) (rows data) values |}.

Definition numeric_key (label : string) (r : Z * gmap string cell)
  : option (Q * (Z * gmap string cell)) :=
  match r.2 !! label with
  | Some (Num q) => Some (q, r)
  | _ => None
  end.

(** [data.sort_values(by=label, ascending=False)]: the rows with a
    number under [label] in descending order, then the others. *)
Definition sort_values_desc `{DescendingSort} (data : DataFrame) (label : string)
  : result DataFrame :=
  if bool_decide (label ∈ columns data) then
    Ok {| columns := columns data;
          index_name := index_name data;
          rows := (snd <$> sort_desc fst (omap (numeric_key label) (rows data)))
                  ++ filter (λ r, numeric_key label r = None) (rows data) |}
  else Raise (KeyError label).

(** [data[labels]] *)
Definition select_columns (data : DataFrame) (labels : list string) : result DataFrame :=
  match filter (λ c, c ∉ columns data) labels with
  | [] => Ok {| columns := labels;
                index_name := index_name data;
                rows := (λ r, (r.1, filter (λ kv, kv.1 ∈ labels) r.2)) <$> rows data |}
  | c :: _ => Raise (KeyError c)
  end.

Definition total_score_display_column (week : Z) : string :=
  "Total_Score (Week " +:+ pretty week +:+ ")".

(** Lines 225 to 251 of [display_player_rankings]: the table as the
    function leaves it, and the table it goes on to display. *)
Definition player_rankings `{DescendingSort} (delta_days : Z) (data : DataFrame)
  : DataFrame * result DataFrame :=
  let week := calculate_week delta_days in
  match mapM (total_score week ∘ snd) (rows data) with
  | Raise e => (data, Raise e)
  | Ok scores =>
      let data := assign data "Total_Score" (round2 <$> scores) in
      let data := assign data (total_score_display_column week)
                    ((λ r, Str (format_2f (default NaN (r.2 !! "Total_Score"))))
                       <$> rows data) in
      (data,
       sorted_data ← sort_values_desc data "Total_Score";
       let sorted_data :=
         {| columns := columns sorted_data;
            index_name := Some "Rank";
            rows := imap (λ i r, (Z.of_nat i + 1, r.2)%Z) (rows sorted_data) |} in
       select_columns sorted_data
         ["Player_Name"; "Regular"; "Projection"; total_score_display_column week])
  end.

Definition display_player_rankings `{DescendingSort} (delta_days : Z) (data : DataFrame)
  : DataFrame * ui () :=
  let '(data, sorted_data) := player_rankings delta_days data in
  (data,
   sorted_data ← lift sorted_data;
   emit (st_dataframe sorted_data);;
   emit (st_download_button sorted_data)).

(** Two sorting routines that meet the interface. *)

Fixpoint insert_desc {A} (key : A → Q) (x : A) (l : list A) : list A :=
  match l with
  | [] => [x]
  | y :: l' => if Qle_bool (key y) (key x) then x :: l
               else y :: insert_desc key x l'
  end.

(** Insertion sort: rows with equal keys keep their original order. *)
Definition stable_sort_desc {A} (key : A → Q) (l : list A) : list A :=
  foldr (insert_desc key) [] l.


(** ** Notions used in the statements *)

(** The total of a side of [mine] players against [other] players,
    after [evaluate_trade] has added the empty slots. *)
Definition padded_total (mine other : nat) (scores : list Q) : Q :=
  if bool_decide (mine < other)%nat
  then sum scores + 2.00 * inject_Z (Z.of_nat (other - mine))
  else sum scores.

Definition swap_sides (l : trade_locals) : trade_locals :=
  TradeLocals (final_team2_scores l) (final_team2_total l)
              (final_team1_scores l) (final_team1_total l).


(** The cell that the ranking writes under "Total_Score" for a row
    (NaN stands in where the lambda raises and nothing is written). *)
Definition total_score_cell (week : Z) (row : gmap string cell) : cell :=
  match total_score week row with
  | Ok c => round2 c
  | Raise _ => NaN
  end.

(** A row as the ranking leaves it in the table. *)
Definition scored_row (week : Z) (r : Z * gmap string cell) : Z * gmap string cell :=
  (r.1, <[total_score_display_column week := Str (format_2f (total_score_cell week r.2))]>
          (<["Total_Score" := total_score_cell week r.2]> r.2)).







(** No two neighbouring code points are both white space. *)
Fixpoint single_spaced (name : list codepoint) : Prop :=
  match name with
  | c :: (d :: _) as name' => ¬ (isspace c = true ∧ isspace d = true) ∧ single_spaced name'
  | _ => True
  end.

Definition starts_unspaced (name : list codepoint) : Prop :=
  ∀ c, head name = Some c → isspace c = false.

(** ** Tables used in the examples *)

(** A table of five players whose two fields agree, so that each is
    worth its field in every week. *)
Definition example_table : DataFrame :=
  {| columns := ["Player_Name"; "Regular"; "Projection"];
     index_name := None;
     rows := [ (0%Z, {[ "Player_Name" := Str "A1"; "Regular" := Num 12; "Projection" := Num 12 ]});
               (1%Z, {[ "Player_Name" := Str "A2"; "Regular" := Num 10; "Projection" := Num 10 ]});
               (2%Z, {[ "Player_Name" := Str "A3"; "Regular" := Num 8; "Projection" := Num 8 ]});
               (3%Z, {[ "Player_Name" := Str "B1"; "Regular" := Num 15; "Projection" := Num 15 ]});
               (4%Z, {[ "Player_Name" := Str "B2"; "Regular" := Num 5; "Projection" := Num 5 ]}) ] |}.

(** A performance table that names its players under "Player". *)
Definition scores_by_player : DataFrame :=
  {| columns := ["Player"; "Regular"; "Projection"];
     index_name := None;
     rows := [ (0%Z, {[ "Player" := Str "A1"; "Regular" := Num 12; "Projection" := Num 14 ]});
               (1%Z, {[ "Player" := Str "B1"; "Regular" := Num 15; "Projection" := Num 9 ]}) ] |}.

(** The same table with the players under "Player_Name". *)
Definition scores_by_player_name : DataFrame :=
  {| columns := ["Player_Name"; "Regular"; "Projection"];
     index_name := None;
     rows := [ (0%Z, {[ "Player_Name" := Str "A1"; "Regular" := Num 12; "Projection" := Num 14 ]});
               (1%Z, {[ "Player_Name" := Str "B1"; "Regular" := Num 15; "Projection" := Num 9 ]}) ] |}.

(** An injury report: one player of the tables above, one unknown to them. *)
Definition injury_report : DataFrame :=
  {| columns := ["Player"; "Injury"; "Status"];
     index_name := None;
     rows := [ (0%Z, {[ "Player" := Str "B1"; "Injury" := Str "Knee"; "Status" := Str "Out" ]});
               (1%Z, {[ "Player" := Str "Z9"; "Injury" := Str "Ankle"; "Status" := Str "Day-To-Day" ]}) ] |}.

(** A performance table with neither identity column. *)
Definition scores_by_name : DataFrame :=
  {| columns := ["Name"; "Regular"; "Projection"];
     index_name := None;
     rows := [ (0%Z, {[ "Name" := Str "A1"; "Regular" := Num 12; "Projection" := Num 14 ]}) ] |}.

(** Two players with equal scores. *)
Definition tied_table : DataFrame :=
  {| columns := ["Player_Name"; "Regular"; "Projection"];
     index_name := None;
     rows := [ (0%Z, {[ "Player_Name" := Str "A1"; "Regular" := Num 10; "Projection" := Num 10 ]});
               (1%Z, {[ "Player_Name" := Str "B1"; "Regular" := Num 10; "Projection" := Num 10 ]}) ] |}.

(** The rank and the name of each displayed row. *)
Definition ranked_names (sorted_data : result DataFrame) : list (Z * option cell) :=
  match sorted_data with
  | Ok df => (λ r, (r.1, r.2 !! "Player_Name")) <$> rows df
  | Raise _ => []
  end.

(** * Properties *)

(** ** Exceptions and the page *)

Lemma result_bind_Ok {A B} (f : A → result B) (m : result A) (b : B) :
  m ≫= f = Ok b ↔ ∃ a, m = Ok a ∧ f a = Ok b.
Proof.
  destruct m as [a|e]; simpl; split.
  - eauto.
  - by intros (a' & [= <-] & ?).
  - discriminate.
  - by intros (a' & ? & _).
Qed.

Lemma mapM_result_Forall2 {A B} (f : A → result B) (l : list A) (k : list B) :
  mapM f l = Ok k ↔ Forall2 (λ x y, f x = Ok y) l k.
Proof.
  revert k. induction l as [|x l IH]; intros k; simpl.
  - split; [intros [= <-]; constructor | by inversion 1].
  - split.
    + intros (y & Hy & (k' & Hk' & [= <-])%result_bind_Ok)%result_bind_Ok.
      constructor; [done | by apply IH].
    + inversion 1 as [|? y ? k' Hy Hk']; subst.
      apply result_bind_Ok. exists y. split; [done|].
      apply result_bind_Ok. exists k'. split; [by apply IH | done].
Qed.

(** ** The score of one player *)

Lemma Qmax_2_ge (q : Q) : 2 <= Qmax 2 q.
Proof. apply Q.le_max_l. Qed.

Lemma max2_ge (c : cell) (q : Q) : max2 c = Ok q → 2 <= q.
Proof.
  destruct c; simpl; intros [= <-]; [apply Qmax_2_ge | lra].
Qed.

Lemma calculate_score_ge_2 (player_name : string) (week : Z) (data : DataFrame) (score : Q) :
  calculate_score player_name week data = Ok score → 2 <= score.
Proof.
  unfold calculate_score.
  intros (player_data & _ & (regular & _ & (projection & _ & [= <-])%result_bind_Ok)
            %result_bind_Ok)%result_bind_Ok.
  apply Qmax_2_ge.
Qed.


(** ** Trade evaluation *)

Lemma calculate_score_lookups (player : string) (week : Z) (data : DataFrame) (score : Q) :
  calculate_score player week data = Ok score →
  ∃ player_data regular projection,
    select_player data player = Ok player_data
    ∧ series_get player_data "Regular" ≫= max2 = Ok regular
    ∧ series_get player_data "Projection" ≫= max2 = Ok projection.
Proof.
  unfold calculate_score.
  intros (player_data & Hsel & (regular & Hr & (projection & Hp & _)%result_bind_Ok)
            %result_bind_Ok)%result_bind_Ok.
  eauto 6.
Qed.

Lemma evaluate_team_scores (week : Z) (data : DataFrame) (players : list string)
    (scores : list Q) (details : list detail) :
  evaluate_team week data players = Ok (scores, details) →
  Forall2 (λ p s, calculate_score p week data = Ok s) players scores.
Proof.
  revert scores details. induction players as [|p players IH]; intros scores details; simpl.
  - intros [= <- <-]. constructor.
  - destruct (calculate_score p week data) as [score|] eqn:Hscore; [simpl|done].
    destruct (select_player data p) as [player_data|]; [simpl|done].
    destruct (series_get player_data "Regular" ≫= max2); [simpl|done].
    destruct (series_get player_data "Projection" ≫= max2); [simpl|done].
    destruct (evaluate_team week data players) as [[scores' details']|]; [simpl|done].
    intros [= <- <-]. constructor; [done | by eapply IH].
Qed.

Lemma evaluate_team_Ok (week : Z) (data : DataFrame) (players : list string)
    (scores : list Q) :
  Forall2 (λ p s, calculate_score p week data = Ok s) players scores →
  ∃ details, evaluate_team week data players = Ok (scores, details).
Proof.
  induction 1 as [|p score players scores Hscore _ [details IH]]; simpl.
  - eauto.
  - destruct (calculate_score_lookups _ _ _ _ Hscore)
      as (player_data & regular & projection & -> & Hr & Hp).
    rewrite Hscore. simpl. rewrite Hr. simpl. rewrite Hp. simpl. rewrite IH. simpl.
    eauto.
Qed.



Lemma evaluate_team_length (week : Z) (data : DataFrame) (players : list string)
    (scores : list Q) (details : list detail) :
  evaluate_team week data players = Ok (scores, details) →
  length scores = length players.
Proof. intros H%evaluate_team_scores. symmetry. by eapply Forall2_length. Qed.

Lemma evaluate_team_ge_2 (week : Z) (data : DataFrame) (players : list string)
    (scores : list Q) (details : list detail) :
  evaluate_team week data players = Ok (scores, details) →
  Forall (λ s, 2 <= s) scores.
Proof.
  intros H%evaluate_team_scores. induction H; constructor; [|done].
  by eapply calculate_score_ge_2.
Qed.

(** What [evaluate_trade] returns once both loops have run. *)
Lemma evaluate_trade_outcome (delta_days : Z) (data : DataFrame)
    (team1_players team2_players : list string)
    (scores1 scores2 : list Q) (details1 details2 : list detail) :
  let week := calculate_week delta_days in
  let n1 := length team1_players in
  let n2 := length team2_players in
  let l := TradeLocals (scores1 ++ replicate (n2 - n1) 2.00) (padded_total n1 n2 scores1)
                       (scores2 ++ replicate (n1 - n2) 2.00) (padded_total n2 n1 scores2) in
  let trade_ratio := Qmin (final_team1_total l / final_team2_total l)
                          (final_team2_total l / final_team1_total l) in
  evaluate_team week data team1_players = Ok (scores1, details1) →
  evaluate_team week data team2_players = Ok (scores2, details2) →
  outcome (evaluate_trade delta_days data team1_players team2_players)
  = Ok (if Qeq_bool (final_team1_total l) 0 || Qeq_bool (final_team2_total l) 0
        then TradeInvalid l
        else TradeEvaluated l trade_ratio (Qle_bool 0.80 trade_ratio)).
Proof.
  intros week n1 n2 l trade_ratio H1 H2.
  unfold evaluate_trade. fold week. rewrite H1, H2.
  subst l trade_ratio. unfold padded_total. fold n1 n2. simpl.
  repeat case_bool_decide; simpl.
  all: try lia.
  - replace (n1 - n2)%nat with 0%nat by lia. simpl. rewrite app_nil_r.
    destruct (_ || _); simpl; [done|]. by destruct (Qle_bool _ _).
  - replace (n2 - n1)%nat with 0%nat by lia. simpl. rewrite app_nil_r.
    destruct (_ || _); simpl; [done|]. by destruct (Qle_bool _ _).
  - replace (n1 - n2)%nat with 0%nat by lia.
    replace (n2 - n1)%nat with 0%nat by lia. simpl. rewrite !app_nil_r.
    destruct (_ || _); simpl; [done|]. by destruct (Qle_bool _ _).
Qed.




Lemma foldl_Qplus (a : Q) (l : list Q) : foldl Qplus a l == a + sum l.
Proof.
  unfold sum. revert a. induction l as [|x l IH]; intros a; simpl.
  - lra.
  - rewrite (IH (a + x)), (IH (0 + x)). lra.
Qed.

Lemma sum_app (l k : list Q) : sum (l ++ k) == sum l + sum k.
Proof. unfold sum at 1. rewrite foldl_app. apply foldl_Qplus. Qed.

Lemma inject_Z_S (n : nat) : inject_Z (Z.of_nat (S n)) == inject_Z (Z.of_nat n) + 1.
Proof. rewrite Nat2Z.inj_succ. unfold Z.succ. rewrite inject_Z_plus. reflexivity. Qed.

Lemma sum_replicate (n : nat) : sum (replicate n 2.00) == 2.00 * inject_Z (Z.of_nat n).
Proof.
  induction n as [|n IH].
  - reflexivity.
  - change (replicate (S n) 2.00) with ([2.00] ++ replicate n 2.00).
    rewrite sum_app, IH, inject_Z_S. unfold sum. cbn [foldl]. lra.
Qed.

Lemma sum_ge (l : list Q) :
  Forall (λ s, 2 <= s) l → 2 * inject_Z (Z.of_nat (length l)) <= sum l.
Proof.
  induction 1 as [|x l Hx _ IH].
  - change (inject_Z (Z.of_nat (length (@nil Q)))) with 0.
    unfold sum. cbn [foldl]. lra.
  - change (x :: l) with ([x] ++ l). rewrite sum_app.
    change (length ([x] ++ l)) with (S (length l)). rewrite inject_Z_S.
    unfold sum at 1. cbn [foldl]. lra.
Qed.

Lemma inject_Z_nat_nonneg (n : nat) : 0 <= inject_Z (Z.of_nat n).
Proof. change 0 with (inject_Z 0). rewrite <- Zle_Qle. lia. Qed.

Lemma inject_Z_nat_pos (n : nat) : (0 < n)%nat → 1 <= inject_Z (Z.of_nat n).
Proof. intros H. change 1 with (inject_Z 1). rewrite <- Zle_Qle. lia. Qed.

Lemma padded_total_sum (mine other : nat) (scores : list Q) :
  padded_total mine other scores == sum (scores ++ replicate (other - mine) 2.00).
Proof.
  unfold padded_total. rewrite sum_app, sum_replicate. case_bool_decide.
  - reflexivity.
  - replace (other - mine)%nat with 0%nat by lia.
    change (inject_Z (Z.of_nat 0)) with 0. lra.
Qed.

(** A side that is padded, or that has a player, has a positive total. *)
Lemma padded_total_pos (mine other : nat) (scores : list Q) :
  length scores = mine → Forall (λ s, 2 <= s) scores →
  (0 < mine ∨ 0 < other)%nat →
  0 < padded_total mine other scores.
Proof.
  intros Hlen Hge%sum_ge Hpos. rewrite Hlen in Hge. unfold padded_total.
  pose proof (inject_Z_nat_nonneg mine). pose proof (inject_Z_nat_nonneg (other - mine)).
  case_bool_decide.
  - pose proof (inject_Z_nat_pos (other - mine) ltac:(lia)). lra.
  - pose proof (inject_Z_nat_pos mine ltac:(lia)). lra.
Qed.

Lemma Qeq_bool_pos (q : Q) : 0 < q → Qeq_bool q 0 = false.
Proof.
  intros H. destruct (Qeq_bool q 0) eqn:E; [|done].
  apply Qeq_bool_iff in E. lra.
Qed.

(** The fairness ratio of two positive totals. *)
Lemma ratio_range (a b : Q) :
  0 < a → 0 < b →
  0 < Qmin (a / b) (b / a) ∧ Qmin (a / b) (b / a) <= 1
  ∧ (Qmin (a / b) (b / a) == 1 ↔ a == b).
Proof.
  intros Ha Hb.
  assert (0 < a / b) as Hab by (apply Qlt_shift_div_l; lra).
  assert (0 < b / a) as Hba by (apply Qlt_shift_div_l; lra).
  assert (a == (a / b) * b) as Ea by (field; lra).
  assert (b == (b / a) * a) as Eb by (field; lra).
  assert (a / b <= 1 ↔ a <= b) as L1.
  { split; intros H; [nra | apply Qle_shift_div_r; lra]. }
  assert (b / a <= 1 ↔ b <= a) as L2.
  { split; intros H; [nra | apply Qle_shift_div_r; lra]. }
  destruct (Q.min_spec (a / b) (b / a)) as [[Hlt ->]|[Hle ->]].
  - destruct (Qlt_le_dec b a) as [Hgt|Hge].
    + assert (b / a <= 1) by (apply L2; lra).
      assert (1 <= a / b) by (apply Qle_shift_div_l; lra). lra.
    + split; [done|]. split; [by apply L1|]. split; intros Heq; [nra|].
      rewrite Heq. field. lra.
  - destruct (Qlt_le_dec a b) as [Hgt|Hge].
    + assert (a / b <= 1) by (apply L1; lra).
      assert (1 <= b / a) by (apply Qle_shift_div_l; lra).
      split; [done|]. split; [lra|]. split; intros Heq; [nra|].
      rewrite Heq. field. lra.
    + split; [done|]. split; [by apply L2|]. split; intros Heq; [nra|].
      rewrite Heq. field. lra.
Qed.

Lemma evaluate_trade_Ok_inv (delta_days : Z) (data : DataFrame)
    (team1_players team2_players : list string) (o : trade_outcome) :
  outcome (evaluate_trade delta_days data team1_players team2_players) = Ok o →
  ∃ scores1 details1 scores2 details2,
    evaluate_team (calculate_week delta_days) data team1_players = Ok (scores1, details1)
    ∧ evaluate_team (calculate_week delta_days) data team2_players = Ok (scores2, details2).
Proof.
  unfold evaluate_trade.
  destruct (evaluate_team _ data team1_players) as [[scores1 details1]|e1]; [|done].
  destruct (evaluate_team _ data team2_players) as [[scores2 details2]|e2]; [|done].
  eauto 6.
Qed.

(** The guards of [main] let a disjoint, not all empty selection through. *)
Lemma main_on_submit_evaluates (delta_days : Z) (data : DataFrame)
    (team1_selected team2_selected : list string) :
  (∀ p, p ∈ team1_selected → p ∉ team2_selected) →
  ¬ (team1_selected = [] ∧ team2_selected = []) →
  main_on_submit delta_days data team1_selected team2_selected
  = (r ← evaluate_trade delta_days data team1_selected team2_selected; mret (Some r)).
Proof.
  intros Hdisj Hne. unfold main_on_submit.
  rewrite bool_decide_false.
  2: { intros Hdup. apply Hdup. apply set_eq. intros p.
       rewrite elem_of_intersection, !elem_of_list_to_set, elem_of_empty.
       split; [intros [? ?]; by eapply Hdisj | done]. }
  destruct team1_selected, team2_selected; simpl; try done.
  destruct Hne; done.
Qed.

Lemma outcome_bind_Some {A} (m : ui A) (a : A) :
  outcome m = Ok a → outcome (r ← m; mret (Some r)) = Ok (Some a).
Proof. intros H. unfold mbind, ui_bind. by rewrite H. Qed.

(** What a selection that can be scored yields: shared by the
    statements on padding and on an empty side. *)
Lemma evaluate_trade_scored (delta_days : Z) (data : DataFrame)
    (team1_players team2_players : list string) (scores1 scores2 : list Q) :
  let week := calculate_week delta_days in
  let n1 := length team1_players in
  let n2 := length team2_players in
  let l := TradeLocals (scores1 ++ replicate (n2 - n1) 2.00) (padded_total n1 n2 scores1)
                       (scores2 ++ replicate (n1 - n2) 2.00) (padded_total n2 n1 scores2) in
  let trade_ratio := Qmin (final_team1_total l / final_team2_total l)
                          (final_team2_total l / final_team1_total l) in
  ¬ (team1_players = [] ∧ team2_players = []) →
  Forall2 (λ p s, calculate_score p week data = Ok s) team1_players scores1 →
  Forall2 (λ p s, calculate_score p week data = Ok s) team2_players scores2 →
  outcome (evaluate_trade delta_days data team1_players team2_players)
  = Ok (TradeEvaluated l trade_ratio (Qle_bool 0.80 trade_ratio))
  ∧ 0 < final_team1_total l ∧ 0 < final_team2_total l.
Proof.
  intros week n1 n2 l trade_ratio Hne H1 H2.
  destruct (evaluate_team_Ok _ _ _ _ H1) as [details1 E1].
  destruct (evaluate_team_Ok _ _ _ _ H2) as [details2 E2].
  assert (0 < n1 ∨ 0 < n2)%nat as Hpos.
  { subst n1 n2. destruct team1_players, team2_players; simpl; try lia.
    destruct Hne; done. }
  assert (0 < final_team1_total l) as P1.
  { apply padded_total_pos; [by eapply evaluate_team_length
                            | by eapply evaluate_team_ge_2 | done]. }
  assert (0 < final_team2_total l) as P2.
  { apply padded_total_pos; [by eapply evaluate_team_length
                            | by eapply evaluate_team_ge_2 | lia]. }
  split; [|done].
  rewrite (evaluate_trade_outcome _ _ _ _ _ _ _ _ E1 E2).
  fold week n1 n2 l. by rewrite !Qeq_bool_pos.
Qed.


(** C5. Exchanging the two sides of a trade that is evaluated exchanges
    the two totals and leaves the ratio and the verdict as they were;
    when both totals are positive the ratio lies in (0, 1] and is 1
    exactly when the totals are equal. *)
Theorem evaluate_trade_symmetric (delta_days : Z) (data : DataFrame)
    (side_a side_b : list string) (o : trade_outcome) :
  outcome (evaluate_trade delta_days data side_a side_b) = Ok o →
  match o with
  | TradeInvalid l =>
      outcome (evaluate_trade delta_days data side_b side_a)
      = Ok (TradeInvalid (swap_sides l))
  | TradeEvaluated l trade_ratio approved =>
      (∃ trade_ratio',
         outcome (evaluate_trade delta_days data side_b side_a)
         = Ok (TradeEvaluated (swap_sides l) trade_ratio' approved)
         ∧ trade_ratio' == trade_ratio)
      ∧ (0 < final_team1_total l → 0 < final_team2_total l →
         0 < trade_ratio ∧ trade_ratio <= 1
         ∧ (trade_ratio == 1 ↔ final_team1_total l == final_team2_total l))
  end.
Proof.
  intros Hout.
  destruct (evaluate_trade_Ok_inv _ _ _ _ _ Hout)
    as (scores_a & details_a & scores_b & details_b & Ea & Eb).
  rewrite (evaluate_trade_outcome _ _ _ _ _ _ _ _ Ea Eb) in Hout.
  rewrite (evaluate_trade_outcome _ _ _ _ _ _ _ _ Eb Ea).
  simpl in *. rewrite (orb_comm (Qeq_bool (padded_total _ _ scores_b) 0)).
  destruct (_ || _); injection Hout as <-.
  - done.
  - split.
    + eexists. split.
      * f_equal. f_equal. apply Qleb_comp; [reflexivity | apply Q.min_comm].
      * apply Q.min_comm.
    + simpl. apply ratio_range.
Qed.

Lemma evaluate_trade_symmetric_witness :
  ∃ l trade_ratio',
    outcome (evaluate_trade 70 example_table ["B1"; "B2"] ["A1"; "A2"; "A3"])
    = Ok (TradeEvaluated (swap_sides l) trade_ratio' false)
    ∧ final_team1_total l == 30 ∧ final_team2_total l == 22.
Proof.
  pose proof (evaluate_trade_symmetric 70 example_table ["A1"; "A2"; "A3"] ["B1"; "B2"] _
                eq_refl) as [(trade_ratio' & Hswap & _) _].
  eexists _, trade_ratio'. split; [exact Hswap|]. split; vm_compute; congruence.
Defined.






(** C10. A selection with one empty side and [n >= 1] players that can
    be scored on the other is evaluated: the empty side receives [n]
    empty slots, so that its total is 2.00 * n and not zero, and a
    ratio and a verdict come out. *)
Theorem one_empty_side_is_evaluated (delta_days : Z) (data : DataFrame)
    (players : list string) (scores : list Q) :
  players ≠ [] →
  Forall2 (λ p s, calculate_score p (calculate_week delta_days) data = Ok s)
          players scores →
  (∃ l trade_ratio approved,
     outcome (main_on_submit delta_days data [] players)
     = Ok (Some (TradeEvaluated l trade_ratio approved))
     ∧ final_team1_scores l = replicate (length players) 2.00
     ∧ final_team1_total l == 2.00 * inject_Z (Z.of_nat (length players))
     ∧ ¬ final_team1_total l == 0
     ∧ final_team2_scores l = scores)
  ∧ (∃ l trade_ratio approved,
       outcome (main_on_submit delta_days data players [])
       = Ok (Some (TradeEvaluated l trade_ratio approved))
       ∧ final_team2_scores l = replicate (length players) 2.00
       ∧ final_team2_total l == 2.00 * inject_Z (Z.of_nat (length players))
       ∧ ¬ final_team2_total l == 0
       ∧ final_team1_scores l = scores).
Proof.
  intros Hne Hscores.
  assert (0 < length players)%nat as Hlen by (destruct players; simpl; [done|lia]).
  split.
  - destruct (evaluate_trade_scored delta_days data [] players [] scores)
      as (Hout & P1 & _); [by intros [_ ?] | constructor | done |].
    eexists _, _, _. split.
    { rewrite main_on_submit_evaluates; [|by intros p ?%elem_of_nil|by intros [_ ?]].
      apply outcome_bind_Some, Hout. }
    simpl in *. rewrite Nat.sub_0_r.
    split; [done|]. split.
    { rewrite padded_total_sum. simpl. rewrite Nat.sub_0_r. apply sum_replicate. }
    split; [lra|].
    replace (0 - length players)%nat with 0%nat by lia. apply app_nil_r.
  - destruct (evaluate_trade_scored delta_days data players [] scores [])
      as (Hout & _ & P2); [by intros [? _] | done | constructor |].
    eexists _, _, _. split.
    { rewrite main_on_submit_evaluates; [|by intros p _ ?%elem_of_nil|by intros [? _]].
      apply outcome_bind_Some, Hout. }
    simpl in *. rewrite Nat.sub_0_r.
    split; [done|]. split.
    { rewrite padded_total_sum. simpl. rewrite Nat.sub_0_r. apply sum_replicate. }
    split; [lra|].
    replace (0 - length players)%nat with 0%nat by lia. apply app_nil_r.
Qed.

Lemma one_empty_side_is_evaluated_witness :
  ∃ l trade_ratio approved,
    outcome (main_on_submit 70 example_table [] ["B1"; "B2"])
    = Ok (Some (TradeEvaluated l trade_ratio approved))
    ∧ final_team1_total l == 4.
Proof.
  edestruct (one_empty_side_is_evaluated 70 example_table ["B1"; "B2"])
    as [(l & trade_ratio & approved & Hout & _ & Htotal & _) _].
  - discriminate.
  - repeat (econstructor; [vm_compute; reflexivity|]). constructor.
  - exists l, trade_ratio, approved. split; [exact Hout|].
    rewrite Htotal. reflexivity.
Defined.

(** ** Name normalisation *)

Lemma single_spaced_cons (c : codepoint) (name : list codepoint) :
  single_spaced name → (isspace c = true → starts_unspaced name) →
  single_spaced (c :: name).
Proof.
  intros Hs Hc. destruct name as [|d name]; [done|].
  split; [|done]. intros [Hws Hd]. specialize (Hc Hws d eq_refl). congruence.
Qed.

Lemma single_spaced_app (pre name : list codepoint) :
  single_spaced (pre ++ name) → single_spaced pre ∧ single_spaced name.
Proof.
  induction pre as [|c [|d pre] IH]; simpl.
  - done.
  - destruct name; [done | intros [_ ?]; done].
  - intros [Hcd Hrest]. destruct (IH Hrest) as [? ?]. done.
Qed.

Lemma single_spaced_lookup (name : list codepoint) (i : nat) (c d : codepoint) :
  single_spaced name → name !! i = Some c → name !! S i = Some d →
  ¬ (isspace c = true ∧ isspace d = true).
Proof.
  revert i. induction name as [|x [|y name] IH]; intros [|i]; simpl; try done.
  - intros [H _] [= <-] [= <-]. done.
  - intros [_ H] Hc Hd. exact (IH i H Hc Hd).
Qed.

Lemma sub_space_runs_spaced (in_run : bool) (name : list codepoint) :
  single_spaced (sub_space_runs in_run name)
  ∧ (in_run = true → starts_unspaced (sub_space_runs in_run name)).
Proof.
  revert in_run. induction name as [|c name IH]; intros in_run; simpl.
  - split; [done | by intros _ c].
  - destruct (isspace c) eqn:Hc.
    + destruct in_run.
      * apply IH.
      * split; [|done]. apply single_spaced_cons; [apply IH|].
        intros _. by apply IH.
    + split.
      * apply single_spaced_cons; [apply IH | congruence].
      * intros _ d [= <-]. done.
Qed.

Lemma sub_space_runs_chars (in_run : bool) (name : list codepoint) :
  Forall (λ c, is_a_z c = true ∨ isspace c = true) name →
  Forall (λ c, is_a_z c = true ∨ c = space) (sub_space_runs in_run name).
Proof.
  intros H. revert in_run. induction H as [|c name Hc _ IH]; intros in_run; simpl.
  - constructor.
  - destruct (isspace c) eqn:Hws.
    + destruct in_run; [apply IH | constructor; [by right | apply IH]].
    + constructor; [|apply IH]. destruct Hc; [by left | congruence].
Qed.

Lemma sub_not_a_z_space_chars (name : list codepoint) :
  Forall (λ c, is_a_z c = true ∨ isspace c = true) (sub_not_a_z_space name).
Proof.
  apply List.Forall_forall. intros c [_ Hc%orb_true_iff]%List.filter_In. done.
Qed.

Lemma lstrip_suffix (name : list codepoint) : ∃ pre, name = pre ++ lstrip name.
Proof.
  induction name as [|c name [pre IH]]; simpl.
  - by exists [].
  - destruct (isspace c); [|by exists []].
    exists (c :: pre). simpl. by f_equal.
Qed.

Lemma lstrip_starts_unspaced (name : list codepoint) : starts_unspaced (lstrip name).
Proof.
  induction name as [|c name IH]; simpl; [by intros c|].
  destruct (isspace c) eqn:Hc; [done|]. by intros d [= <-].
Qed.

(** [strip] keeps a contiguous part of the string. *)
Lemma strip_infix (name : list codepoint) : ∃ pre suf, name = pre ++ strip name ++ suf.
Proof.
  unfold strip. destruct (lstrip_suffix name) as [pre Hpre].
  destruct (lstrip_suffix (reverse (lstrip name))) as [pre' Hpre'].
  exists pre, (reverse pre'). rewrite <- reverse_app, <- Hpre', reverse_involutive. done.
Qed.

Lemma strip_ends (name : list codepoint) :
  starts_unspaced (strip name)
  ∧ (∀ c, last (strip name) = Some c → isspace c = false).
Proof.
  unfold strip, starts_unspaced. rewrite head_reverse. setoid_rewrite last_reverse.
  split; [|apply lstrip_starts_unspaced].
  intros c Hlast.
  destruct (lstrip_suffix (reverse (lstrip name))) as [pre Hpre].
  apply (lstrip_starts_unspaced name c).
  rewrite <- last_reverse, Hpre. apply last_app_Some. by left.
Qed.

(** C9. Whatever [lower] and the NFKD normalisation return, the
    normalised name is made of lowercase latin letters and spaces only,
    neither begins nor ends with white space, and never has two white
    space characters, hence two spaces, in a row.  The function is
    total: the empty string included, every input has a result. *)
Theorem normalize_player_name_shape
    (lower NFKD : list codepoint → list codepoint) (player_name : list codepoint) :
  let name := normalize_player_name lower NFKD player_name in
  Forall (λ c, is_a_z c = true ∨ c = space) name
  ∧ (∀ c, head name = Some c → isspace c = false)
  ∧ (∀ c, last name = Some c → isspace c = false)
  ∧ (∀ i c d, name !! i = Some c → name !! S i = Some d →
       ¬ (isspace c = true ∧ isspace d = true) ∧ ¬ (c = space ∧ d = space)).
Proof.
  intros name. subst name. unfold normalize_player_name.
  set (collapsed := sub_space_runs false _).
  destruct (strip_infix collapsed) as (pre & suf & Hinfix).
  assert (Forall (λ c, is_a_z c = true ∨ c = space) collapsed) as Hchars
    by apply sub_space_runs_chars, sub_not_a_z_space_chars.
  assert (single_spaced collapsed) as Hspaced by apply sub_space_runs_spaced.
  rewrite Hinfix in Hchars, Hspaced.
  apply Forall_app in Hchars as [_ [Hchars _]%Forall_app].
  apply single_spaced_app in Hspaced as [_ [Hspaced _]%single_spaced_app].
  split; [done|]. split; [apply strip_ends|]. split; [apply strip_ends|].
  intros i c d Hc Hd.
  pose proof (single_spaced_lookup _ _ _ _ Hspaced Hc Hd) as Hcd.
  split; [done|]. intros [-> ->]. apply Hcd. done.
Qed.

(** ** Merging *)

Lemma fillna_columns (data merged : DataFrame) (label : string) (value : cell) :
  fillna data label value = Ok merged → columns merged = columns data.
Proof. unfold fillna. case_bool_decide; [|done]. by intros [= <-]. Qed.

(** Whatever the inputs, the table that [read_data] returns has no
    column labelled "Player". *)
Lemma read_data_drops_Player (scores_file injury_file : result DataFrame)
    (merged_df : DataFrame) :
  outcome (read_data scores_file injury_file) = Ok merged_df →
  "Player" ∉ columns merged_df.
Proof.
  unfold read_data.
  destruct scores_file as [df_scores|]; simpl; [|intros [= <-]; set_solver].
  destruct injury_file as [df_injuries|]; simpl; [|intros [= <-]; by intros ?%elem_of_nil].
  set (merged := if bool_decide _ then _ else _).
  destruct merged as [m0|]; simpl; [|intros [= <-]; by intros ?%elem_of_nil].
  destruct (fillna m0 _ _) as [m1|]; simpl; [|intros [= <-]; by intros ?%elem_of_nil].
  destruct (fillna m1 _ _) as [m2|]; simpl; [|intros [= <-]; by intros ?%elem_of_nil].
  case_bool_decide; simpl; intros [= <-]; [|done].
  simpl. rewrite list_elem_of_filter. by intros [? _].
Qed.

(** C3, the path that works: with the identity under "Player_Name", the
    join keeps both performance rows, leaves the injury-only player
    out, fills the missing injury cells and drops the injury key only. *)
Example read_data_by_player_name :
  read_data (Ok scores_by_player_name) (Ok injury_report)
  = Ui [] (Ok
      {| columns := ["Player_Name"; "Regular"; "Projection"; "Injury"; "Status"];
         index_name := None;
         rows := [ (0%Z, {[ "Player_Name" := Str "A1"; "Regular" := Num 12;
                            "Projection" := Num 14; "Injury" := Str "Healthy";
                            "Status" := Str "Active" ]});
                   (1%Z, {[ "Player_Name" := Str "B1"; "Regular" := Num 15;
                            "Projection" := Num 9; "Injury" := Str "Knee";
                            "Status" := Str "Out" ]}) ] |}).
Proof. vm_compute. reflexivity. Qed.

(** C3, the path that does not: with the identity under "Player" the
    join succeeds on the shared key, and the unconditional drop of
    "Player" then removes the only identity column.  The merged table
    has no column naming its players, although the claim keeps it. *)
Theorem read_data_by_player_loses_identity :
  read_data (Ok scores_by_player) (Ok injury_report)
  = Ui [] (Ok
      {| columns := ["Regular"; "Projection"; "Injury"; "Status"];
         index_name := None;
         rows := [ (0%Z, {[ "Regular" := Num 12; "Projection" := Num 14;
                            "Injury" := Str "Healthy"; "Status" := Str "Active" ]});
                   (1%Z, {[ "Regular" := Num 15; "Projection" := Num 9;
                            "Injury" := Str "Knee"; "Status" := Str "Out" ]}) ] |})
  ∧ ("Player" ∉ ["Regular"; "Projection"; "Injury"; "Status"])
  ∧ ("Player_Name" ∉ ["Regular"; "Projection"; "Injury"; "Status"]).
Proof.
  split; [vm_compute; reflexivity|].
  split; intros H; set_unfold; destruct H as [?|[?|[?|[?|[]]]]]; discriminate.
Qed.

(** C6. When the performance table has neither a "Player_Name" nor a
    "Player" column, the merge fails: [read_data] reports the failure
    on the page and hands back the empty table, nothing of a merge. *)
Theorem read_data_without_identity (df_scores df_injuries : DataFrame) :
  "Player_Name" ∉ columns df_scores →
  "Player" ∉ columns df_scores →
  read_data (Ok df_scores) (Ok df_injuries)
  = Ui [st_error (FailedToReadData (KeyError "Player"))] (Ok empty_frame).
Proof.
  intros Hname Hplayer. unfold read_data. simpl.
  rewrite (bool_decide_false _ Hname). unfold merge_left.
  rewrite (bool_decide_false _ Hplayer). simpl.
  by destruct (bool_decide ("Player" ∈ columns df_injuries)).
Qed.

Lemma read_data_without_identity_witness :
  read_data (Ok scores_by_name) (Ok injury_report)
  = Ui [st_error (FailedToReadData (KeyError "Player"))] (Ok empty_frame).
Proof.
  apply read_data_without_identity.
  - intros H. set_unfold. destruct H as [?|[?|[?|[]]]]; discriminate.
  - intros H. set_unfold. destruct H as [?|[?|[?|[]]]]; discriminate.
Defined.

(** ** Sorting *)

Lemma insert_desc_perm {A} (key : A → Q) (x : A) (l : list A) :
  insert_desc key x l ≡ₚ x :: l.
Proof.
  induction l as [|y l IH]; simpl; [done|].
  destruct (Qle_bool (key y) (key x)); [done|].
  rewrite IH. apply Permutation_swap.
Qed.

Lemma insert_desc_sorted {A} (key : A → Q) (x : A) (l : list A) :
  StronglySorted (λ a b, key b <= key a) l →
  StronglySorted (λ a b, key b <= key a) (insert_desc key x l).
Proof.
  induction 1 as [|y l Hsorted IH Hy]; simpl.
  - repeat constructor.
  - destruct (Qle_bool (key y) (key x)) eqn:Hle.
    + apply Qle_bool_iff in Hle. constructor; [by constructor|].
      constructor; [done|]. eapply Forall_impl; [exact Hy|].
      intros z Hz. simpl in *. lra.
    + assert (key x <= key y) as Hxy.
      { destruct (Qlt_le_dec (key x) (key y)) as [?|Hge]; [lra|].
        apply Qle_bool_iff in Hge. congruence. }
      constructor; [done|].
      rewrite (insert_desc_perm key x l). by constructor.
Qed.

Lemma stable_sort_desc_perm {A} (key : A → Q) (l : list A) :
  stable_sort_desc key l ≡ₚ l.
Proof.
  induction l as [|x l IH]; simpl; [done|].
  by rewrite insert_desc_perm, IH.
Qed.

Lemma stable_sort_desc_sorted {A} (key : A → Q) (l : list A) :
  StronglySorted (λ a b, key b <= key a) (stable_sort_desc key l).
Proof.
  induction l as [|x l IH]; simpl; [constructor|].
  by apply insert_desc_sorted.
Qed.

(** What [kind='stable'] would give. *)
Definition stable_kind : DescendingSort :=
  {| sort_desc := @stable_sort_desc;
     sort_desc_perm := @stable_sort_desc_perm;
     sort_desc_sorted := @stable_sort_desc_sorted |}.





(** ** Ranking *)

Lemma zip_with_fmap_same {A B C} (f : A → B → C) (g : A → B) (l : list A) :
  zip_with f l (g <$> l) = (λ x, f x (g x)) <$> l.
Proof. induction l as [|x l IH]; csimpl; [done | by rewrite IH]. Qed.

Lemma mapM_result_fmap {A B} (f : A → result B) (d : B) (l : list A) (k : list B) :
  mapM f l = Ok k → k = (λ x, match f x with Ok y => y | Raise _ => d end) <$> l.
Proof.
  intros H%mapM_result_Forall2. induction H as [|x y l k Hxy _ IH]; csimpl; [done|].
  by rewrite Hxy, IH.
Qed.


(** The five canonical fields are neither of the two columns written. *)
Lemma canonical_not_written (week : Z) (c : string) :
  c ∈ ["Player_Name"; "Regular"; "Projection"; "Injury"; "Status"] →
  c ≠ "Total_Score" ∧ c ≠ total_score_display_column week.
Proof.
  unfold total_score_display_column. simpl. intros H. set_unfold.
  destruct H as [->|[->|[->|[->|[->|[]]]]]]; split; discriminate.
Qed.

Lemma assign_rows_fmap (data : DataFrame) (label : string)
    (g : Z * gmap string cell → cell) :
  rows (assign data label (g <$> rows data))
  = (λ r, (r.1, <[label := g r]> r.2)) <$> rows data.
Proof. apply zip_with_fmap_same. Qed.

(** The rows of the table after the two column assignments. *)
Lemma player_rankings_rows `{DescendingSort} (delta_days : Z) (data : DataFrame)
    (scores : list cell) :
  let week := calculate_week delta_days in
  mapM (total_score week ∘ snd) (rows data) = Ok scores →
  rows (player_rankings delta_days data).1 = scored_row week <$> rows data.
Proof.
  intros week Hscores. unfold player_rankings. fold week. rewrite Hscores.
  apply (mapM_result_fmap _ NaN) in Hscores. subst scores.
  rewrite <- list_fmap_compose.
  cbn [fst]. rewrite assign_rows_fmap, assign_rows_fmap, <- list_fmap_compose.
  apply list_fmap_ext. intros i [j row] _. unfold scored_row, total_score_cell.
  cbn. rewrite lookup_insert_eq. cbn. by destruct (total_score week row).
Qed.

Lemma display_player_rankings_data `{DescendingSort} (delta_days : Z) (data : DataFrame) :
  (display_player_rankings delta_days data).1 = (player_rankings delta_days data).1.
Proof. unfold display_player_rankings. by destruct (player_rankings delta_days data). Qed.

Lemma player_rankings_columns `{DescendingSort} (delta_days : Z) (data : DataFrame) :
  let week := calculate_week delta_days in
  columns data `prefix_of` columns (player_rankings delta_days data).1
  ∧ ∀ c, c ∈ columns (player_rankings delta_days data).1 →
         c ∈ columns data ∨ c = "Total_Score" ∨ c = total_score_display_column week.
Proof.
  intros week. unfold player_rankings. fold week.
  destruct (mapM _ _) as [scores|e]; cbn [fst]; [|split; [done | by left]].
  unfold assign; cbn [columns].
  repeat case_bool_decide; split; try done.
  all: try (by intros c ?; left).
  - by apply prefix_app_r.
  - intros c [?|Hc%list_elem_of_singleton]%elem_of_app; [by left | by right; left].
  - by apply prefix_app_r.
  - intros c [?|Hc%list_elem_of_singleton]%elem_of_app; [by left | by right; right].
  - rewrite <- (assoc_L (++)). by apply prefix_app_r.
  - intros c [[?|Hc%list_elem_of_singleton]%elem_of_app|Hc%list_elem_of_singleton]%elem_of_app;
      [by left | by right; left | by right; right].
Qed.

(** C8. Ranking leaves the table with the same rows in the same order
    under the same index labels; in every row, every cell outside the
    two columns it writes ("Total_Score" and the display column of the
    week) is what it was, the cells under "Player_Name", "Regular",
    "Projection", "Injury" and "Status" among them; and the columns
    that were there stay, in order, before the ones added. *)
Theorem display_player_rankings_frame `{DescendingSort} (delta_days : Z) (data : DataFrame) :
  let week := calculate_week delta_days in
  let data' := (display_player_rankings delta_days data).1 in
  (rows data').*1 = (rows data).*1
  ∧ (∀ i r r' c, rows data !! i = Some r → rows data' !! i = Some r' →
       c ≠ "Total_Score" → c ≠ total_score_display_column week →
       r'.2 !! c = r.2 !! c)
  ∧ (∀ i r r' c, rows data !! i = Some r → rows data' !! i = Some r' →
       c ∈ ["Player_Name"; "Regular"; "Projection"; "Injury"; "Status"] →
       r'.2 !! c = r.2 !! c)
  ∧ columns data `prefix_of` columns data'
  ∧ (∀ c, c ∈ columns data' →
       c ∈ columns data ∨ c = "Total_Score" ∨ c = total_score_display_column week).
Proof.
  intros week data'. subst data'. rewrite display_player_rankings_data.
  assert (rows (player_rankings delta_days data).1 = rows data
          ∨ rows (player_rankings delta_days data).1 = scored_row week <$> rows data)
    as Hrows.
  { destruct (mapM (total_score week ∘ snd) (rows data)) as [scores|e] eqn:Hscores.
    - right. by eapply player_rankings_rows.
    - left. unfold player_rankings. fold week. by rewrite Hscores. }
  assert (∀ i r r' c, rows data !! i = Some r →
            rows (player_rankings delta_days data).1 !! i = Some r' →
            c ≠ "Total_Score" → c ≠ total_score_display_column week →
            r'.2 !! c = r.2 !! c) as Hframe.
  { intros i r r' c Hr Hr' Hc1 Hc2. destruct Hrows as [Hrows|Hrows]; rewrite Hrows in Hr'.
    - congruence.
    - rewrite list_lookup_fmap, Hr in Hr'. injection Hr' as <-.
      unfold scored_row. cbn [snd]. by rewrite !lookup_insert_ne. }
  split; [|split; [|split]].
  - destruct Hrows as [->| ->]; [done|].
    rewrite <- list_fmap_compose. by apply list_fmap_ext.
  - exact Hframe.
  - intros i r r' c Hr Hr' Hc. destruct (canonical_not_written week c Hc).
    by eapply Hframe.
  - apply player_rankings_columns.
Qed.












Example tied_ranking_stable :
  ranked_names (@player_rankings stable_kind 70 tied_table).2
  = [(1%Z, Some (Str "A1")); (2%Z, Some (Str "B1"))].
Proof. vm_compute. reflexivity. Qed.



(** The ranking does not floor: a score below 2 stays below 2, where
    the single-player score of the same row is 2. *)
Example ranking_not_floored :
  let low := {| columns := ["Player_Name"; "Regular"; "Projection"];
                index_name := None;
                rows := [ (0%Z, {[ "Player_Name" := Str "C1"; "Regular" := Num 0;
                                   "Projection" := Num 1 ]}) ] |} in
  (λ r, r.2 !! "Total_Score") <$> rows (@player_rankings stable_kind 70 low).1
  = [Some (Num (45 # 100))]
  ∧ calculate_score "C1" 11 low = Ok 2.
Proof. split; vm_compute; reflexivity. Qed.

Lemma display_player_rankings_frame_witness :
  (λ r, r.2 !! "Regular") <$> rows (@display_player_rankings stable_kind 70 example_table).1
  = (λ r, r.2 !! "Regular") <$> rows example_table.
Proof.
  destruct (@display_player_rankings_frame stable_kind 70 example_table)
    as (Hindex & _ & Hframe & _).
  apply list_eq. intros i. rewrite !list_lookup_fmap.
  destruct (rows example_table !! i) as [r|] eqn:Hr.
  - destruct (rows (@display_player_rankings stable_kind 70 example_table).1 !! i)
      as [r'|] eqn:Hr'.
    + simpl. f_equal. eapply Hframe; [exact Hr | exact Hr' | set_unfold; tauto].
    + apply (f_equal (λ l, l !! i)) in Hindex.
      rewrite !list_lookup_fmap, Hr, Hr' in Hindex. discriminate.
  - destruct (rows (@display_player_rankings stable_kind 70 example_table).1 !! i)
      as [r'|] eqn:Hr'; [|done].
    apply (f_equal (λ l, l !! i)) in Hindex.
    rewrite !list_lookup_fmap, Hr, Hr' in Hindex. discriminate.
Defined.


Lemma normalize_player_name_shape_witness :
  normalize_player_name id id [32; 108; 101; 32; 9; 32; 98; 33; 32]%N
  = [108; 101; 32; 98]%N
  ∧ ∀ c, head (normalize_player_name id id [32; 108; 101; 32; 9; 32; 98; 33; 32]%N) = Some c
         → isspace c = false.
Proof.
  split; [vm_compute; reflexivity|].
  apply (normalize_player_name_shape id id [32; 108; 101; 32; 9; 32; 98; 33; 32]%N).
Defined.
